(** * A shallow embedding of the chat client (nextjs-app)

    Sources embedded here:
    - [src/nextjs-app/firebase.js]                 (client initialisation)
    - [src/nextjs-app/src/app/ChatAppComponent.js] (session, feed, composer)
    - [src/nextjs-app/src/app/page.js]             (same handlers, plain markup)

    JavaScript strings are sequences of UTF-16 code units, [async] handlers are
    split at their [await] into the part that runs at the call and the part
    that runs when the promise settles, and everything a handler does to the
    outside world is recorded as a list of effects. *)

From Stdlib Require Import ZArith NArith Ascii String List Bool Lia Sorting.Sorted.
From stdpp Require Import base option list gmap strings.
Import ListNotations.

Local Open Scope list_scope.

(** ** JavaScript strings *)

Module JsString.

(** A string value: its UTF-16 code units. *)
Definition t := list N.

(** A literal written in the source with ASCII characters only. *)
Fixpoint lit (s : string) : t :=
  match s with
  | EmptyString => []
  | String c s' => N_of_ascii c :: lit s'
  end.

(** ECMAScript [WhiteSpace] and [LineTerminator] code points; all of them
    lie in the basic plane, so the test is on one code unit. *)
Definition isWhiteSpace (c : N) : bool :=
  ((9 <=? c) && (c <=? 13)
   || (c =? 32) || (c =? 160) || (c =? 5760)
   || ((8192 <=? c) && (c <=? 8202))
   || (c =? 8232) || (c =? 8233) || (c =? 8239) || (c =? 8287)
   || (c =? 12288) || (c =? 65279))%N.

Fixpoint trimStart (s : t) : t :=
  match s with
  | [] => []
  | c :: s' => if isWhiteSpace c then trimStart s' else s
  end.

Definition trimEnd (s : t) : t := rev (trimStart (rev s)).

(** [String.prototype.trim]. *)
Definition trim (s : t) : t := trimEnd (trimStart s).

(** [ToBoolean] on a string: only the empty string is falsy. *)
Definition truthy (s : t) : bool :=
  match s with [] => false | _ :: _ => true end.

(** [a || b] where [a] is a string or [null]/[undefined]. *)
Definition or_else (a : option t) (b : t) : t :=
  match a with
  | Some s => if truthy s then s else b
  | None => b
  end.

End JsString.

Abbreviation jsstring := JsString.t.
Notation "'js' s" := (JsString.lit s) (at level 9, s at level 0, format "'js' s").

(** ** Values exchanged with the identity provider and the document store *)

(** The provider's user object, with the fields the client reads. *)
Record User := mkUser {
  uid : jsstring;
  displayName : option jsstring;
  email : option jsstring;
  photoURL : option jsstring
}.

(** A caught exception; the client only ever reads its [message]. *)
Record JsError := mkError { message : jsstring }.

(** What a field of a written document holds for [createdAt]. *)
Inductive FieldValue := serverTimestamp.

(** The object literal handed to [addDoc] by [sendMessage]. *)
Record NewMessage := mkNewMessage {
  text : jsstring;
  createdAt : FieldValue;
  nm_uid : jsstring;
  nm_photoURL : option jsstring;
  userName : jsstring
}.

(** How an awaited promise settles. *)
Inductive settled (A : Type) :=
| Resolved (a : A)
| Rejected (e : JsError).
Arguments Resolved {A} a.
Arguments Rejected {A} e.

(** Everything a handler does besides updating component state. *)
Inductive effect :=
| PreventDefault
| AddDoc (coll : string) (d : NewMessage)
| SignInWithPopup
| SignOut
| RouterPush (url : string)
| ConsoleError (label : string) (e : JsError)
| Alert (msg : string).

(** ** Component state of [ChatAppComponent] / [Page] *)

Record state := mkState {
  user : option User;
  loadingAuth : bool;
  formValue : jsstring
}.

(** [useState(null)], [useState(true)], [useState('')]. *)
Definition initial : state :=
  {| user := None; loadingAuth := true; formValue := [] |}.

Definition setUser (u : option User) (st : state) : state :=
  {| user := u; loadingAuth := loadingAuth st; formValue := formValue st |}.
Definition setLoadingAuth (b : bool) (st : state) : state :=
  {| user := user st; loadingAuth := b; formValue := formValue st |}.
Definition setFormValue (v : jsstring) (st : state) : state :=
  {| user := user st; loadingAuth := loadingAuth st; formValue := v |}.

(** ** Composer: [sendMessage] *)

(** The guard [!formValue.trim() || !user]: [true] when the handler returns
    early. A user object is always truthy, [null] never. *)
Definition sendMessage_rejects (st : state) : bool :=
  negb (JsString.truthy (JsString.trim (formValue st)))
  || negb (bool_decide (is_Some (user st))).

(** The document built from the destructured user and the draft. *)
Definition newMessage (draft : jsstring) (u : User) : NewMessage :=
  {| text := draft;
     createdAt := serverTimestamp;
     nm_uid := uid u;
     nm_photoURL := photoURL u;
     userName := JsString.or_else (displayName u) (js"Anonymous") |}.

(** The part of [sendMessage] that runs at the call, up to the [await]:
    the effects issued, and whether an [addDoc] promise is now pending. *)
Definition sendMessage_call (st : state) : list effect * bool :=
  if sendMessage_rejects st then ([PreventDefault], false)
  else match user st with
       | None => ([PreventDefault], false)
       | Some u =>
           ([PreventDefault; AddDoc "messages" (newMessage (formValue st) u)],
            true)
       end.

(** The part after the [await], run on the state the component has when the
    promise settles. *)
Definition sendMessage_settle (r : settled unit) (st : state)
  : state * list effect :=
  match r with
  | Resolved _ => (setFormValue [] st, [])
  | Rejected e => (st, [ConsoleError "Error sending message:" e])
  end.

(** A whole submit with nothing else happening while the append is in
    flight. *)
Definition sendMessage (st : state) (r : settled unit) : state * list effect :=
  let '(eff, pending) := sendMessage_call st in
  if pending then
    let '(st', eff') := sendMessage_settle r st in (st', eff ++ eff')
  else (st, eff).

(** The documents appended by a run of effects. *)
Fixpoint appends (l : list effect) : list NewMessage :=
  match l with
  | [] => []
  | AddDoc _ d :: l' => d :: appends l'
  | _ :: l' => appends l'
  end.

(** ** Session controller *)

(** The callback registered with [onAuthStateChanged]. *)
Definition onAuthStateChanged (currentUser : option User) (st : state) : state :=
  setLoadingAuth false (setUser currentUser st).

Definition deployedUrl : string := "https://necxis-assignment-one.vercel.app/".

(** [handleGoogleLogin] up to its [await]. *)
Definition handleGoogleLogin_call (st : state) : state * list effect :=
  (setLoadingAuth true st, [SignInWithPopup]).

(** [handleGoogleLogin] from the [await] on: the rest of the [try] block or
    the [catch] block, then the [finally] block. *)
Definition handleGoogleLogin_settle (r : settled unit) (st : state)
  : state * list effect :=
  let eff :=
    match r with
    | Resolved _ => [RouterPush deployedUrl]
    | Rejected e =>
        [ConsoleError "Error signing in with Google:" e;
         Alert "Failed to sign in with Google. Please try again."]
    end in
  (setLoadingAuth false st, eff).

(** A whole sign-in attempt with nothing else happening in between. *)
Definition handleGoogleLogin (st : state) (r : settled unit)
  : state * list effect :=
  let '(st1, eff1) := handleGoogleLogin_call st in
  let '(st2, eff2) := handleGoogleLogin_settle r st1 in
  (st2, eff1 ++ eff2).

(** [handleSignOut] up to its [await]. *)
Definition handleSignOut_call (st : state) : state * list effect :=
  (st, [SignOut]).

(** [handleSignOut] from the [await] on. *)
Definition handleSignOut_settle (r : settled unit) (st : state)
  : state * list effect :=
  match r with
  | Resolved _ => (st, [])
  | Rejected e => (st, [ConsoleError "Error signing out:" e])
  end.

Definition handleSignOut (st : state) (r : settled unit)
  : state * list effect :=
  let '(st1, eff1) := handleSignOut_call st in
  let '(st2, eff2) := handleSignOut_settle r st1 in
  (st2, eff1 ++ eff2).

(** The session as the view distinguishes it. *)
Inductive session :=
| Loading
| Anonymous
| Authenticated (identity : User).

Definition session_of (st : state) : session :=
  if loadingAuth st then Loading
  else match user st with
       | Some u => Authenticated u
       | None => Anonymous
       end.

(** ** Render shell *)

(** The children of the top-level [Paper], with the props that matter. *)
Inductive element :=
| Title
| AuthSpinner
| ProfileCard (name : jsstring) (mail : option jsstring)
| SignOutButton
| MessagesListEl (u : User)
| MessageFormEl (value : jsstring) (disabled : bool)
| SignInPrompt
| SignInButton.

(** The [return] of [ChatAppComponent]. *)
Definition render (st : state) : list element :=
  Title ::
  (if loadingAuth st then [AuthSpinner]
   else match user st with
        | Some u =>
            [ProfileCard (JsString.or_else (displayName u) (js"User")) (email u);
             SignOutButton;
             MessagesListEl u;
             MessageFormEl (formValue st)
               (negb (JsString.truthy (JsString.trim (formValue st))))]
        | None => [SignInPrompt; SignInButton]
        end).

Definition is_feed (e : element) : bool :=
  match e with MessagesListEl _ => true | _ => false end.
Definition is_composer (e : element) : bool :=
  match e with MessageFormEl _ _ => true | _ => false end.
Definition is_auth_prompt (e : element) : bool :=
  match e with SignInPrompt | SignInButton => true | _ => false end.

(** ** The event loop

    Handlers run to completion one at a time; an [async] handler contributes
    one event for its call and one for the settling of its promise. *)
Inductive event :=
| AuthStateChanged (currentUser : option User)
| InputChanged (v : jsstring)
| SubmitClicked
| AddDocSettled (r : settled unit)
| SignInClicked
| SignInSettled (r : settled unit)
| SignOutClicked
| SignOutSettled (r : settled unit).

Definition step (st : state) (ev : event) : state * list effect :=
  match ev with
  | AuthStateChanged cu => (onAuthStateChanged cu st, [])
  | InputChanged v => (setFormValue v st, [])
  | SubmitClicked => (st, fst (sendMessage_call st))
  | AddDocSettled r => sendMessage_settle r st
  | SignInClicked => handleGoogleLogin_call st
  | SignInSettled r => handleGoogleLogin_settle r st
  | SignOutClicked => handleSignOut_call st
  | SignOutSettled r => handleSignOut_settle r st
  end.

Fixpoint run (st : state) (evs : list event) : state * list effect :=
  match evs with
  | [] => (st, [])
  | ev :: evs' =>
      let '(st1, eff1) := step st ev in
      let '(st2, eff2) := run st1 evs' in
      (st2, eff1 ++ eff2)
  end.

(** ** Message feed binding *)

(** A stored timestamp, as the milliseconds [toMillis] would give. *)
Definition Timestamp := Z.

(** A document of the [messages] collection as a snapshot delivers it.
    [m_createdAt] is [null] while the server has not assigned the time. *)
Record Message := mkMessage {
  m_id : option jsstring;
  m_text : jsstring;
  m_createdAt : option Timestamp;
  m_uid : option jsstring;
  m_userName : option jsstring
}.

(** *** Evaluation that may throw

    Method calls on a possibly-null receiver are the one place where the
    feed code could raise; a computation yields the calls it made on
    timestamps and either the exception or its value. *)
Inductive tscall :=
| ToDate (receiver : option Timestamp)
| ToMillis (receiver : option Timestamp).

Inductive outcome (A : Type) :=
| Returned (a : A)
| Thrown (what : string).
Arguments Returned {A} a.
Arguments Thrown {A} what.

Definition eval (A : Type) : Type := list tscall * outcome A.

Definition ret {A} (a : A) : eval A := ([], Returned a).

Definition bind {A B} (m : eval A) (k : A -> eval B) : eval B :=
  match m with
  | (tr, Returned a) => let '(tr', r) := k a in (tr ++ tr', r)
  | (tr, Thrown w) => (tr, Thrown w)
  end.

Notation "x <- m ;; k" := (bind m (fun x => k))
  (at level 100, m at next level, right associativity).

(** [receiver.toDate()]: a [TypeError] when the receiver is [null]. *)
Definition toDate (receiver : option Timestamp) : eval Timestamp :=
  ([ToDate receiver],
   match receiver with
   | Some t => Returned t
   | None => Thrown "TypeError: Cannot read properties of null (reading 'toDate')"
   end).

(** [receiver?.toMillis()]: optional chaining skips the call on [null]. *)
Definition toMillis_opt (receiver : option Timestamp) : eval (option Z) :=
  match receiver with
  | Some t => ([ToMillis receiver], Returned (Some t))
  | None => ret None
  end.

Fixpoint mapM {A B} (f : A -> eval B) (l : list A) : eval (list B) :=
  match l with
  | [] => ret []
  | a :: l' => b <- f a ;; bs <- mapM f l' ;; ret (b :: bs)
  end.

(** A trace in which no method was called on [null]. *)
Definition null_safe (tr : list tscall) : Prop :=
  Forall (fun c => c <> ToDate None /\ c <> ToMillis None) tr.

(** What [MessagesList] puts on screen. *)
Inductive feed_element :=
| Spinner
| LoadingText
| ErrorText (msg : jsstring)
| EmptyState
| ChatMessageEl (key : option (jsstring + Z)) (m : Message)
    (isCurrentUser : bool) (time : jsstring)
| EndAnchor.

(** The triple returned by [useCollectionData]. *)
Record hook_result := mkHook {
  messages : option (list Message);
  loadingMessages : bool;
  error : option JsError
}.

Section Feed.

(** [date.toLocaleTimeString([], {hour: '2-digit', minute: '2-digit'})]
    depends on the viewer's locale and time zone. *)
Variable toLocaleTimeString : Timestamp -> jsstring.

(** [formatTime]. *)
Definition formatTime (timestamp : option Timestamp) : eval jsstring :=
  if negb (bool_decide (is_Some timestamp)) then ret []
  else date <- toDate timestamp ;; ret (toLocaleTimeString date).

(** [msg.id || msg.createdAt?.toMillis()]. *)
Definition message_key (msg : Message) : eval (option (jsstring + Z)) :=
  match m_id msg with
  | Some i =>
      if JsString.truthy i then ret (Some (inl i))
      else ms <- toMillis_opt (m_createdAt msg) ;; ret (inr <$> ms)
  | None => ms <- toMillis_opt (m_createdAt msg) ;; ret (inr <$> ms)
  end.

(** One iteration of [messages.map], with [ChatMessage] rendered. *)
Definition renderMessage (u : option User) (msg : Message)
  : eval feed_element :=
  let isCurrentUser := bool_decide (m_uid msg = uid <$> u) in
  k <- message_key msg ;;
  time <- formatTime (m_createdAt msg) ;;
  ret (ChatMessageEl k msg isCurrentUser time).

(** The body of [MessagesList] in ChatAppComponent.js. *)
Definition MessagesList (h : hook_result) (u : option User)
  : eval (list feed_element) :=
  if loadingMessages h then ret [Spinner; LoadingText]
  else match error h with
       | Some e =>
           ret [ErrorText (js"Error loading messages: " ++ message e)]
       | None =>
           match messages h with
           | None | Some [] => ret [EmptyState; EndAnchor]
           | Some msgs =>
               els <- mapM (renderMessage u) msgs ;;
               ret (els ++ [EndAnchor])
           end
       end.

End Feed.

(** The three states of the binding, read off the triple in the order the
    component tests it. *)
Inductive feed_state :=
| FeedLoading
| FeedError (msg : jsstring)
| FeedReady (msgs : list Message).

Definition feed_state_of (h : hook_result) : feed_state :=
  if loadingMessages h then FeedLoading
  else match error h with
       | Some e => FeedError (message e)
       | None => FeedReady (default [] (messages h))
       end.

(** *** The query

    [orderBy('createdAt')] sorts ascending, and a timestamp still pending
    compares after every assigned one. Among documents with equal values
    the store orders by document identifier; here they keep the order of
    the list, and no statement below relies on the order among equal
    values. *)
Definition createdAt_leb (a b : option Timestamp) : bool :=
  match a, b with
  | Some x, Some y => (x <=? y)%Z
  | Some _, None => true
  | None, Some _ => false
  | None, None => true
  end.

(** The order of the query as a relation on documents. *)
Definition createdAt_le (a b : Message) : Prop :=
  createdAt_leb (m_createdAt a) (m_createdAt b) = true.

Fixpoint insert_by (m : Message) (l : list Message) : list Message :=
  match l with
  | [] => [m]
  | x :: l' =>
      if createdAt_leb (m_createdAt x) (m_createdAt m) then x :: insert_by m l'
      else m :: l
  end.

Definition orderBy_createdAt (coll : list Message) : list Message :=
  fold_left (fun acc m => insert_by m acc) coll [].

(** [limit(n)]: the first [n] documents of the ordered result. *)
Definition limit (n : nat) (l : list Message) : list Message := firstn n l.

(** [limitToLast(n)]: the last [n] documents of the ordered result. *)
Definition limitToLast (n : nat) (l : list Message) : list Message :=
  skipn (length l - n) l.

(** [query(messagesRef, orderBy('createdAt'), limit(50))]. *)
Definition messagesQuery (coll : list Message) : list Message :=
  limit 50 (orderBy_createdAt coll).

(** The window the specification describes: the 50 most recent messages,
    oldest first. *)
Definition spec_feed_window (coll : list Message) : list Message :=
  limitToLast 50 (orderBy_createdAt coll).

(** ** Client initialisation (firebase.js) *)

Module Firebase.

(** The object literal [firebaseConfig]; a field is [None] when the
    expression read from [process.env] is [undefined]. *)
Record Options := mkOptions {
  apiKey : option string;
  authDomain : option string;
  projectId : option string;
  storageBucket : option string;
  messagingSenderId : option string;
  appId : option string;
  measurementId : option string
}.

Definition firebaseConfig (env : gmap string string) : Options :=
  {| apiKey := env !! "NEXT_PUBLIC_FIREBASE_API_KEY";
     authDomain := env !! "NEXT_PUBLIC_FIREBASE_AUTH_DOMAIN";
     projectId := env !! "NEXT_PUBLIC_FIREBASE_PROJECT_ID";
     storageBucket := env !! "NEXT_PUBLIC_FIREBASE_STORAGE_BUCKET";
     messagingSenderId := env !! "NEXT_PUBLIC_FIREBASE_MESSAGING_SENDER_ID";
     appId := env !! "NEXT_PUBLIC_FIREBASE_APP_ID";
     measurementId := env !! "NEXT_PUBLIC_FIREBASE_VAPID_KEY" |}.

(** The environment variables the module reads. *)
Definition parameters : list string :=
  ["NEXT_PUBLIC_FIREBASE_API_KEY"; "NEXT_PUBLIC_FIREBASE_AUTH_DOMAIN";
   "NEXT_PUBLIC_FIREBASE_PROJECT_ID"; "NEXT_PUBLIC_FIREBASE_STORAGE_BUCKET";
   "NEXT_PUBLIC_FIREBASE_MESSAGING_SENDER_ID"; "NEXT_PUBLIC_FIREBASE_APP_ID";
   "NEXT_PUBLIC_FIREBASE_VAPID_KEY"].

(** The provider SDK as the module calls it. Each initializer either
    returns a handle or throws. *)
Class Sdk := {
  App : Type;
  Auth : Type;
  Firestore : Type;
  getApp : list App -> outcome App;
  initializeApp : Options -> outcome App;
  getAuth : App -> outcome Auth;
  getFirestore : App -> outcome Firestore
}.

Definition and_then {A B} (m : outcome A) (k : A -> outcome B) : outcome B :=
  match m with
  | Returned a => k a
  | Thrown w => Thrown w
  end.

(** What the module exports. *)
Record Client `{Sdk} := mkClient {
  firebaseApp : App;
  auth : Auth;
  googleProvider : list (string * string);
  db : Firestore
}.

(** Evaluation of the module body; [apps] is what [getApps()] returns. *)
Definition init `{Sdk} (env : gmap string string) (apps : list App)
  : outcome Client :=
  and_then (if (length apps =? 0)%nat then initializeApp (firebaseConfig env)
            else getApp apps) (fun app =>
  and_then (getAuth app) (fun a =>
  and_then (getFirestore app) (fun d =>
  Returned {| firebaseApp := app; auth := a;
              googleProvider := [("prompt", "select_account")];
              db := d |}))).

(** An SDK to run the module on: an app is the options it was created
    with, the auth service refuses to start without an API key, the
    database handle remembers the project. *)
#[local] Instance keeping_sdk : Sdk := {|
  App := Options;
  Auth := string;
  Firestore := option string;
  getApp := fun apps =>
    match apps with
    | a :: _ => Returned a
    | [] => Thrown "app/no-app"
    end;
  initializeApp := fun o => Returned o;
  getAuth := fun app =>
    match apiKey app with
    | Some k => Returned k
    | None => Thrown "auth/invalid-api-key"
    end;
  getFirestore := fun app => Returned (projectId app)
|}.

(** An environment with the three parameters sign-in and the database
    need, and nothing else. *)
Definition sparse_env : gmap string string :=
  <["NEXT_PUBLIC_FIREBASE_API_KEY" := "k"]>
  (<["NEXT_PUBLIC_FIREBASE_AUTH_DOMAIN" := "chat.example.com"]>
  (<["NEXT_PUBLIC_FIREBASE_PROJECT_ID" := "chat"]> ∅)).

End Firebase.

(** ** The rest of the components *)

(** *** [ChatMessage] *)

(** What one bubble shows. *)
Record bubble := mkBubble {
  alignSelf : string;
  caption : option jsstring;
  body : jsstring;
  timeLabel : jsstring
}.

(** The markup of [ChatMessage], given the label [formatTime] returned for
    [message.createdAt]. The sender's name is shown above messages of other
    users only. *)
Definition ChatMessage (message : Message) (isCurrentUser : bool)
    (time : jsstring) : bubble :=
  {| alignSelf := if isCurrentUser then "flex-end" else "flex-start";
     caption := if negb isCurrentUser
                then Some (JsString.or_else (m_userName message) (js"Anonymous"))
                else None;
     body := m_text message;
     timeLabel := time |}.

(** A written document as a snapshot of the collection delivers it back:
    the fields as written, the identifier the hook adds (if it does), and
    the server's time once it is assigned. *)
Definition snapshot_of (id : option jsstring) (ts : option Timestamp)
    (d : NewMessage) : Message :=
  {| m_id := id; m_text := text d; m_createdAt := ts;
     m_uid := Some (nm_uid d); m_userName := Some (userName d) |}.

(** *** The profile card's avatar *)

Inductive avatar :=
| AvatarImage (src : jsstring)
| AvatarLetter (letter : jsstring).

(** [s.charAt(0)]: the first code unit, or the empty string. *)
Definition charAt0 (s : jsstring) : jsstring :=
  match s with
  | [] => []
  | c :: _ => [c]
  end.

(** [user.photoURL ? <Avatar src=.../> :
     <Avatar>{user.displayName?.charAt(0) || 'U'}</Avatar>]. *)
Definition profileAvatar (u : User) : avatar :=
  let letter :=
    AvatarLetter (JsString.or_else (charAt0 <$> displayName u) (js"U")) in
  match photoURL u with
  | Some p => if JsString.truthy p then AvatarImage p else letter
  | None => letter
  end.

Definition is_spinner (e : feed_element) : bool :=
  match e with Spinner => true | _ => false end.

(** The time label of a message: empty while the server time is pending. *)
Definition label_of (toLocaleTimeString : Timestamp -> jsstring)
    (ts : option Timestamp) : jsstring :=
  match ts with
  | Some t => toLocaleTimeString t
  | None => []
  end.

(** Strictly earlier: the first time is assigned, and the second is
    pending or assigned and strictly later. *)
Definition createdAt_ltb (a b : option Timestamp) : bool :=
  match a, b with
  | Some x, Some y => (x <? y)%Z
  | Some _, None => true
  | None, _ => false
  end.

Definition createdAt_lt (a b : Message) : Prop :=
  createdAt_ltb (m_createdAt a) (m_createdAt b) = true.

(** *** Counting events and effects *)

Definition is_sign_in_click (ev : event) : bool :=
  match ev with SignInClicked => true | _ => false end.
Definition is_sign_out_click (ev : event) : bool :=
  match ev with SignOutClicked => true | _ => false end.
Definition is_submit_click (ev : event) : bool :=
  match ev with SubmitClicked => true | _ => false end.
Definition is_rejection (ev : event) : bool :=
  match ev with
  | AddDocSettled (Rejected _) | SignInSettled (Rejected _)
  | SignOutSettled (Rejected _) => true
  | _ => false
  end.
Definition is_failed_sign_in (ev : event) : bool :=
  match ev with SignInSettled (Rejected _) => true | _ => false end.

Definition is_popup (e : effect) : bool :=
  match e with SignInWithPopup => true | _ => false end.
Definition is_sign_out_call (e : effect) : bool :=
  match e with SignOut => true | _ => false end.
Definition is_prevent_default (e : effect) : bool :=
  match e with PreventDefault => true | _ => false end.
Definition is_log (e : effect) : bool :=
  match e with ConsoleError _ _ => true | _ => false end.
Definition is_alert (e : effect) : bool :=
  match e with Alert _ => true | _ => false end.
Definition is_navigation (e : effect) : bool :=
  match e with RouterPush _ => true | _ => false end.

Definition count {A} (p : A -> bool) (l : list A) : nat :=
  length (List.filter p l).

(** What the auth-state observer reported last, if it fired at all. *)
Fixpoint last_reported (acc : option (option User)) (evs : list event)
  : option (option User) :=
  match evs with
  | [] => acc
  | AuthStateChanged cu :: evs' => last_reported (Some cu) evs'
  | _ :: evs' => last_reported acc evs'
  end.

(** Events that are not the viewer typing and not the acknowledgment of an
    append. *)
Definition leaves_draft (ev : event) : bool :=
  match ev with
  | InputChanged _ | AddDocSettled (Resolved _) => false
  | _ => true
  end.

(** ** The plain-markup page (page.js)

    [sendMessage], the auth-state callback and [handleSignOut] are the same
    code as in ChatAppComponent.js; [handleGoogleLogin] has no navigation
    after the popup, and the feed shows a line of text while loading. *)

Module Page.

Definition handleGoogleLogin_settle (r : settled unit) (st : state)
  : state * list effect :=
  let eff :=
    match r with
    | Resolved _ => []
    | Rejected e =>
        [ConsoleError "Error signing in with Google:" e;
         Alert "Failed to sign in with Google. Please try again."]
    end in
  (setLoadingAuth false st, eff).

Definition step (st : state) (ev : event) : state * list effect :=
  match ev with
  | AuthStateChanged cu => (onAuthStateChanged cu st, [])
  | InputChanged v => (setFormValue v st, [])
  | SubmitClicked => (st, fst (sendMessage_call st))
  | AddDocSettled r => sendMessage_settle r st
  | SignInClicked => handleGoogleLogin_call st
  | SignInSettled r => handleGoogleLogin_settle r st
  | SignOutClicked => handleSignOut_call st
  | SignOutSettled r => handleSignOut_settle r st
  end.

Fixpoint run (st : state) (evs : list event) : state * list effect :=
  match evs with
  | [] => (st, [])
  | ev :: evs' =>
      let '(st1, eff1) := step st ev in
      let '(st2, eff2) := run st1 evs' in
      (st2, eff1 ++ eff2)
  end.

(** The body of [MessagesList] in page.js. *)
Definition MessagesList (toLocaleTimeString : Timestamp -> jsstring)
    (h : hook_result) (u : option User) : eval (list feed_element) :=
  if loadingMessages h then ret [LoadingText]
  else match error h with
       | Some e =>
           ret [ErrorText (js"Error loading messages: " ++ message e)]
       | None =>
           match messages h with
           | None | Some [] => ret [EmptyState; EndAnchor]
           | Some msgs =>
               els <- mapM (renderMessage toLocaleTimeString u) msgs ;;
               ret (els ++ [EndAnchor])
           end
       end.

End Page.

(** ** Concrete values used in examples *)

Definition alice : User :=
  {| uid := js"u1"; displayName := Some (js"Alice");
     email := Some (js"alice@example.com"); photoURL := None |}.

(** An account for which the provider reports no display name. *)
Definition nameless : User :=
  {| uid := js"u2"; displayName := None;
     email := Some (js"user@example.com"); photoURL := None |}.

(** An account whose display name is the empty string. *)
Definition blank_name : User :=
  {| uid := js"u3"; displayName := Some []; email := None; photoURL := None |}.

Definition signed_in (u : User) (draft : jsstring) : state :=
  {| user := Some u; loadingAuth := false; formValue := draft |}.

Definition signed_out (draft : jsstring) : state :=
  {| user := None; loadingAuth := false; formValue := draft |}.

Definition boom : JsError := {| message := js"network-request-failed" |}.

(** A message committed at time [n] by [alice]. *)
Definition committed (n : nat) : Message :=
  {| m_id := None; m_text := js"hi"; m_createdAt := Some (Z.of_nat n);
     m_uid := Some (js"u1"); m_userName := Some (js"Alice") |}.

(** A collection of 51 messages committed at times 1, 2, ..., 51. *)
Definition history51 : list Message := map committed (seq 1 51).

(** A collection of 50 messages committed at times 1, 2, ..., 50. *)
Definition history50 : list Message := map committed (seq 1 50).

(** A snapshot the hook delivers once loaded: two messages by [alice], the
    second still waiting for its server time. *)
Definition two_messages : hook_result :=
  {| messages := Some [committed 7;
                       snapshot_of None None (newMessage (js"hello") alice)];
     loadingMessages := false;
     error := None |}.

(** A clock for examples: the time label is the digit string "t". *)
Definition const_clock (_ : Timestamp) : jsstring := js"t".

(** * Properties *)

(** ** Trimming *)

Lemma trimStart_nil_iff (s : jsstring) :
  JsString.trimStart s = [] <-> forallb JsString.isWhiteSpace s = true.
Proof.
  induction s as [|c s IH]; simpl; [tauto|].
  destruct (JsString.isWhiteSpace c); simpl; [exact IH|].
  split; discriminate.
Qed.

Lemma trimStart_head (s : jsstring) (c : N) (s' : jsstring) :
  JsString.trimStart s = c :: s' -> JsString.isWhiteSpace c = false.
Proof.
  induction s as [|x s IH]; simpl; [discriminate|].
  destruct (JsString.isWhiteSpace x) eqn:E; [exact IH|].
  intros [= <- _]. exact E.
Qed.

Lemma forallb_rev_ws (s : jsstring) :
  forallb JsString.isWhiteSpace (rev s) = forallb JsString.isWhiteSpace s.
Proof.
  induction s as [|c s IH]; simpl; [reflexivity|].
  rewrite forallb_app, IH. simpl. rewrite andb_true_r. apply andb_comm.
Qed.

Lemma rev_eq_nil {A} (l : list A) : rev l = [] -> l = [].
Proof.
  intros H. apply (f_equal (@rev A)) in H. rewrite rev_involutive in H.
  exact H.
Qed.

(** A string trims to the empty string exactly when it consists of white
    space only (the empty string included). *)
Lemma trim_nil_iff (s : jsstring) :
  JsString.trim s = [] <-> forallb JsString.isWhiteSpace s = true.
Proof.
  unfold JsString.trim, JsString.trimEnd. split.
  - intros H. apply rev_eq_nil in H. apply trimStart_nil_iff in H.
    rewrite forallb_rev_ws in H.
    destruct (JsString.trimStart s) as [|c s'] eqn:E.
    + now apply trimStart_nil_iff.
    + apply trimStart_head in E. simpl in H. rewrite E in H. discriminate.
  - intros H. apply trimStart_nil_iff in H. rewrite H. reflexivity.
Qed.

(** The guard lets a submit through exactly when the trimmed draft is not
    empty and a user object is present. *)
Lemma sendMessage_rejects_false_iff (st : state) :
  sendMessage_rejects st = false <->
  JsString.trim (formValue st) <> [] /\ exists u, user st = Some u.
Proof.
  unfold sendMessage_rejects. rewrite orb_false_iff, !negb_false_iff.
  rewrite bool_decide_eq_true. split.
  - intros [Ht [u Hu]]. split; [|eauto].
    intros E. rewrite E in Ht. discriminate.
  - intros [Ht [u Hu]]. split; [|rewrite Hu; eauto].
    destruct (JsString.trim (formValue st)); [congruence|reflexivity].
Qed.

Lemma sendMessage_rejected (st : state) (r : settled unit) :
  sendMessage_rejects st = true -> sendMessage st r = (st, [PreventDefault]).
Proof.
  intros H. unfold sendMessage, sendMessage_call. rewrite H. reflexivity.
Qed.

Lemma sendMessage_accepted (st : state) (r : settled unit) (u : User) :
  sendMessage_rejects st = false -> user st = Some u ->
  sendMessage st r =
  (fst (sendMessage_settle r st),
   [PreventDefault; AddDoc "messages" (newMessage (formValue st) u)]
     ++ snd (sendMessage_settle r st)).
Proof.
  intros H Hu. unfold sendMessage, sendMessage_call. rewrite H, Hu.
  destruct (sendMessage_settle r st). reflexivity.
Qed.

(** ** Composer *)

(** C2. A submit issues an append only if the trimmed draft is not empty and
    a user is signed in; when the trimmed draft is empty, when the draft is
    made of white space only, or when no user is signed in, the handler
    returns having appended nothing and with the component state as it
    was. *)
Theorem sendMessage_guard (st : state) (r : settled unit) :
  (appends (snd (sendMessage st r)) <> [] ->
   JsString.trim (formValue st) <> [] /\ is_Some (user st)) /\
  (JsString.trim (formValue st) = [] \/ user st = None ->
   fst (sendMessage st r) = st /\ appends (snd (sendMessage st r)) = []) /\
  (forallb JsString.isWhiteSpace (formValue st) = true ->
   fst (sendMessage st r) = st /\ appends (snd (sendMessage st r)) = []).
Proof.
  assert (Hrej : sendMessage_rejects st = true ->
                 fst (sendMessage st r) = st /\
                 appends (snd (sendMessage st r)) = []).
  { intros H. rewrite (sendMessage_rejected st r H). split; reflexivity. }
  split; [|split].
  - intros Happ. destruct (sendMessage_rejects st) eqn:E.
    + destruct (Hrej eq_refl) as [_ Hnil]. congruence.
    + apply sendMessage_rejects_false_iff in E as [Ht [u Hu]].
      split; [exact Ht|]. rewrite Hu. eauto.
  - intros Hor. apply Hrej. unfold sendMessage_rejects.
    destruct Hor as [Ht|Hu].
    + rewrite Ht. reflexivity.
    + rewrite Hu. apply orb_true_r.
  - intros Hws. apply Hrej. unfold sendMessage_rejects.
    apply trim_nil_iff in Hws. rewrite Hws. reflexivity.
Qed.

Lemma sendMessage_guard_witness :
  (JsString.trim (js"hello") <> [] /\ is_Some (Some alice)) /\
  (fst (sendMessage (signed_out (js"hello")) (Resolved tt))
   = signed_out (js"hello") /\
   appends (snd (sendMessage (signed_out (js"hello")) (Resolved tt))) = []) /\
  (fst (sendMessage (signed_in alice [32; 9; 10]%N) (Resolved tt))
   = signed_in alice [32; 9; 10]%N /\
   appends (snd (sendMessage (signed_in alice [32; 9; 10]%N) (Resolved tt))) = []).
Proof.
  split; [|split].
  - destruct (sendMessage_guard (signed_in alice (js"hello")) (Resolved tt))
      as (H & _ & _).
    apply H. discriminate.
  - destruct (sendMessage_guard (signed_out (js"hello")) (Resolved tt))
      as (_ & H & _).
    apply H. right. reflexivity.
  - destruct (sendMessage_guard (signed_in alice [32; 9; 10]%N) (Resolved tt))
      as (_ & _ & H).
    apply H. reflexivity.
Defined.

(** C3. For a submit that passes the guard: when the append is acknowledged
    the draft becomes the empty string and nothing else of the state
    changes; when the append fails the state, draft included, is exactly
    what it was and the only thing done besides the attempted append is
    logging the error. *)
Theorem sendMessage_draft_atomic (st : state) (r : settled unit) :
  sendMessage_rejects st = false ->
  match r with
  | Resolved _ =>
      formValue (fst (sendMessage st r)) = [] /\
      user (fst (sendMessage st r)) = user st /\
      loadingAuth (fst (sendMessage st r)) = loadingAuth st
  | Rejected e =>
      fst (sendMessage st r) = st /\
      exists d,
        snd (sendMessage st r) =
        [PreventDefault; AddDoc "messages" d;
         ConsoleError "Error sending message:" e]
  end.
Proof.
  intros H. pose proof H as H'.
  apply sendMessage_rejects_false_iff in H' as [_ [u Hu]].
  rewrite (sendMessage_accepted st r u H Hu).
  destruct r as [[]|e]; simpl.
  - repeat split.
  - split; [reflexivity|]. eexists. reflexivity.
Qed.

Lemma sendMessage_draft_atomic_witness :
  fst (sendMessage (signed_in alice (js"hello")) (Rejected boom))
  = signed_in alice (js"hello") /\
  exists d,
    snd (sendMessage (signed_in alice (js"hello")) (Rejected boom)) =
    [PreventDefault; AddDoc "messages" d;
     ConsoleError "Error sending message:" boom].
Proof.
  apply (sendMessage_draft_atomic (signed_in alice (js"hello")) (Rejected boom)).
  reflexivity.
Defined.

(** The draft is also cleared, respectively kept, when the component state
    has moved on while the append was in flight. *)
Lemma sendMessage_settle_draft (st : state) :
  (forall u, formValue (fst (sendMessage_settle (Resolved u) st)) = []) /\
  (forall e, sendMessage_settle (Rejected e) st
             = (st, [ConsoleError "Error sending message:" e])).
Proof. split; reflexivity. Qed.

(** C4, as the specification words it, fails: the [userName] of the appended
    document is not the display name of the identity when the provider
    reports none (or an empty one): the document then says "Anonymous". *)
Lemma userName_not_displayName :
  sendMessage_rejects (signed_in nameless (js"hello")) = false /\
  (exists d,
     appends (snd (sendMessage (signed_in nameless (js"hello")) (Resolved tt)))
     = [d] /\
     userName d = js"Anonymous" /\
     displayName nameless <> Some (userName d)) /\
  (exists d,
     appends (snd (sendMessage (signed_in blank_name (js"hello")) (Resolved tt)))
     = [d] /\
     displayName blank_name <> Some (userName d)).
Proof.
  split; [reflexivity|]. split.
  - eexists. split; [reflexivity|]. split; [reflexivity|]. discriminate.
  - eexists. split; [reflexivity|]. discriminate.
Qed.

(** C4, amended. A submit that passes the guard issues exactly one append,
    whatever the store then answers. The document has the draft verbatim as
    [text], the server-timestamp request as [createdAt], the identity's
    [uid] and [photoURL] (null included), and as [userName] the identity's
    display name when that is a non-empty string, "Anonymous" otherwise. *)
Theorem sendMessage_document (st : state) (r : settled unit) :
  sendMessage_rejects st = false ->
  exists u d,
    user st = Some u /\
    appends (snd (sendMessage st r)) = [d] /\
    text d = formValue st /\
    createdAt d = serverTimestamp /\
    nm_uid d = uid u /\
    nm_photoURL d = photoURL u /\
    (forall n, displayName u = Some n -> n <> [] -> userName d = n) /\
    (displayName u = None \/ displayName u = Some [] ->
     userName d = js"Anonymous").
Proof.
  intros H. pose proof H as H'.
  apply sendMessage_rejects_false_iff in H' as [_ [u Hu]].
  exists u, (newMessage (formValue st) u).
  rewrite (sendMessage_accepted st r u H Hu).
  split; [exact Hu|]. split.
  - destruct r as [[]|e]; reflexivity.
  - simpl. repeat split.
    + intros n Hn Hne. rewrite Hn. simpl.
      destruct n; [congruence|reflexivity].
    + intros [Hn|Hn]; rewrite Hn; reflexivity.
Qed.

Lemma sendMessage_document_witness :
  exists d,
    appends (snd (sendMessage (signed_in alice (js"hello")) (Resolved tt))) = [d] /\
    text d = js"hello" /\ nm_uid d = js"u1" /\ userName d = js"Alice".
Proof.
  destruct (sendMessage_document (signed_in alice (js"hello")) (Resolved tt))
    as (u & d & Hu & Happ & Ht & _ & Hid & _ & Hname & _).
  { reflexivity. }
  injection Hu as <-.
  exists d. split; [exact Happ|]. split; [exact Ht|]. split; [exact Hid|].
  apply Hname; [reflexivity|discriminate].
Defined.

(** ** Session controller and render shell *)

Lemma run_cons (st : state) (ev : event) (evs : list event) :
  run st (ev :: evs)
  = (fst (run (fst (step st ev)) evs),
     snd (step st ev) ++ snd (run (fst (step st ev)) evs)).
Proof.
  simpl. destruct (step st ev) as [st1 eff1]. simpl.
  destruct (run st1 evs). reflexivity.
Qed.

Lemma last_reported_acc (evs : list event) (acc : option (option User)) :
  last_reported acc evs
  = match last_reported None evs with
    | Some cu => Some cu
    | None => acc
    end.
Proof.
  revert acc. induction evs as [|ev evs IH]; intros acc; [reflexivity|].
  destruct ev as [cu| | | | | | |]; simpl; try apply IH.
  rewrite (IH (Some cu)). destruct (last_reported None evs); reflexivity.
Qed.

(** The user in state after a run, by what the observer reported during
    it. *)
Lemma run_user_by_reports (evs : list event) (st : state) :
  (last_reported None evs = None -> user (fst (run st evs)) = user st) /\
  (forall cu, last_reported None evs = Some cu ->
              user (fst (run st evs)) = cu).
Proof.
  revert st. induction evs as [|ev evs IH]; intros st.
  { split; [reflexivity|discriminate]. }
  rewrite run_cons. simpl fst.
  destruct (IH (fst (step st ev))) as [IHn IHs].
  destruct ev as [c| | |[]|  |[]| |[]]; simpl last_reported;
    try (split; [intros E; now rewrite (IHn E)|exact IHs]).
  rewrite (last_reported_acc evs (Some c)).
  destruct (last_reported None evs) as [o|] eqn:E.
  - split; [discriminate|]. intros cu [= <-]. now apply IHs.
  - split; [discriminate|]. intros cu [= <-]. now rewrite (IHn eq_refl).
Qed.


Lemma render_by_session (st : state) :
  match session_of st with
  | Loading => render st = [Title; AuthSpinner]
  | Anonymous => render st = [Title; SignInPrompt; SignInButton]
  | Authenticated u =>
      exists name mail,
        render st =
        [Title; ProfileCard name mail; SignOutButton; MessagesListEl u;
         MessageFormEl (formValue st)
           (negb (JsString.truthy (JsString.trim (formValue st))))]
  end.
Proof.
  unfold session_of, render.
  destruct (loadingAuth st); [reflexivity|].
  destruct (user st) as [u|]; [|reflexivity].
  do 2 eexists. reflexivity.
Qed.

(** C5. After any sequence of events from the initial state the session
    is one of Loading, Anonymous, Authenticated(identity), and it decides
    the view: while Loading neither the chat nor the sign-in prompt is
    rendered; when Anonymous the sign-in prompt is rendered and neither the
    feed nor the composer; when Authenticated the feed (for that identity)
    and the composer are rendered and the sign-in prompt is not. *)
Theorem view_follows_session (evs : list event) :
  let st := fst (run initial evs) in
  match session_of st with
  | Loading =>
      In AuthSpinner (render st) /\
      existsb is_feed (render st) = false /\
      existsb is_composer (render st) = false /\
      existsb is_auth_prompt (render st) = false
  | Anonymous =>
      existsb is_auth_prompt (render st) = true /\
      existsb is_feed (render st) = false /\
      existsb is_composer (render st) = false
  | Authenticated u =>
      In (MessagesListEl u) (render st) /\
      existsb is_composer (render st) = true /\
      existsb is_auth_prompt (render st) = false
  end.
Proof.
  intros st. pose proof (render_by_session st) as H.
  destruct (session_of st) as [| |u].
  - rewrite H. simpl. tauto.
  - rewrite H. simpl. tauto.
  - destruct H as (name & mail & ->). simpl. tauto.
Qed.

(** The three sessions are all reachable, so none of the cases above is
    vacuous. *)
Lemma sessions_reachable :
  session_of (fst (run initial [])) = Loading /\
  session_of (fst (run initial [AuthStateChanged None])) = Anonymous /\
  session_of (fst (run initial [AuthStateChanged (Some alice)]))
  = Authenticated alice.
Proof. repeat split. Qed.

(** C7, as the specification words it, fails: after a sign-out call that
    the provider rejects, a signed-in viewer is still Authenticated, not
    Anonymous. *)
Lemma failed_sign_out_not_anonymous :
  session_of (signed_in alice []) = Authenticated alice /\
  session_of (fst (handleSignOut (signed_in alice []) (Rejected boom)))
  = Authenticated alice /\
  session_of (fst (handleSignOut (signed_in alice []) (Rejected boom)))
  <> Anonymous.
Proof. split; [reflexivity|]. split; [reflexivity|discriminate]. Qed.

(** C7, amended. When the sign-out call fails the error is logged and the
    component state, hence the session and the view, is left as it was; the
    session becomes Anonymous when the provider's auth-state observer
    reports that no user is signed in, and for a viewer who is signed in
    only then: whatever happens next, if the session ends up Anonymous the
    observer's last report was that no user is signed in. *)
Theorem failed_sign_out_keeps_session (st : state) (e : JsError) :
  handleSignOut st (Rejected e)
  = (st, [SignOut; ConsoleError "Error signing out:" e]) /\
  session_of (fst (handleSignOut st (Rejected e))) = session_of st /\
  render (fst (handleSignOut st (Rejected e))) = render st /\
  session_of (onAuthStateChanged None st) = Anonymous /\
  (forall u evs,
     user st = Some u ->
     session_of (fst (run st evs)) = Anonymous ->
     last_reported None evs = Some None).
Proof.
  split; [reflexivity|]. split; [reflexivity|]. split; [reflexivity|].
  split; [reflexivity|]. intros u evs Hu Hs.
  assert (Hn : user (fst (run st evs)) = None).
  { unfold session_of in Hs.
    destruct (loadingAuth (fst (run st evs))); [discriminate Hs|].
    destruct (user (fst (run st evs))); [discriminate Hs|reflexivity]. }
  destruct (run_user_by_reports evs st) as [Hnone Hsome].
  destruct (last_reported None evs) as [cu|].
  - rewrite (Hsome cu eq_refl) in Hn. now rewrite Hn.
  - rewrite (Hnone eq_refl), Hu in Hn. discriminate.
Qed.

Lemma failed_sign_out_keeps_session_witness :
  last_reported None
    [SignOutClicked; SignOutSettled (Rejected boom); InputChanged (js"bye");
     SignOutClicked; SignOutSettled (Resolved tt); AuthStateChanged None]
  = Some None.
Proof.
  destruct (failed_sign_out_keeps_session (signed_in alice []) boom)
    as (_ & _ & _ & _ & H).
  apply (H alice); reflexivity.
Defined.

(** C9. When the sign-in popup is cancelled or fails for an Anonymous
    viewer, the session is Anonymous afterwards, an alert is shown, and the
    provider was asked to sign in once: the handler's effects are the one
    popup request, the log entry and the alert. *)
Theorem failed_sign_in_stays_anonymous (st : state) (e : JsError) :
  session_of st = Anonymous ->
  session_of (fst (handleGoogleLogin st (Rejected e))) = Anonymous /\
  snd (handleGoogleLogin st (Rejected e))
  = [SignInWithPopup;
     ConsoleError "Error signing in with Google:" e;
     Alert "Failed to sign in with Google. Please try again."].
Proof.
  unfold session_of. intros H.
  destruct (loadingAuth st) eqn:El; [discriminate|].
  destruct (user st) as [u|] eqn:Eu; [discriminate|].
  split; [|reflexivity].
  unfold handleGoogleLogin; simpl. rewrite Eu. reflexivity.
Qed.

Lemma failed_sign_in_stays_anonymous_witness :
  session_of (fst (handleGoogleLogin (signed_out []) (Rejected boom)))
  = Anonymous /\
  snd (handleGoogleLogin (signed_out []) (Rejected boom))
  = [SignInWithPopup;
     ConsoleError "Error signing in with Google:" boom;
     Alert "Failed to sign in with Google. Please try again."].
Proof.
  apply (failed_sign_in_stays_anonymous (signed_out []) boom). reflexivity.
Defined.

(** The same holds when other handlers ran while the popup was open, as
    long as none of them signed a user in. *)
Lemma failed_sign_in_settle (st : state) (e : JsError) :
  user st = None ->
  session_of (fst (handleGoogleLogin_settle (Rejected e) st)) = Anonymous.
Proof. intros H. unfold session_of; simpl. rewrite H. reflexivity. Qed.

(** ** Message feed *)

Section FeedProperties.

Variable toLocaleTimeString : Timestamp -> jsstring.

Lemma message_key_returns (msg : Message) :
  exists tr k,
    message_key msg = (tr, Returned k) /\ null_safe tr /\
    (m_createdAt msg = None -> tr = []).
Proof.
  unfold message_key, toMillis_opt, null_safe.
  destruct (m_id msg) as [i|]; [destruct (JsString.truthy i)|];
    try (exists [], (Some (inl i)); repeat split; constructor);
    destruct (m_createdAt msg) as [t|]; simpl;
    do 2 eexists; (split; [reflexivity|]);
    (split; [repeat constructor; discriminate|]); congruence.
Qed.

Lemma formatTime_returns (ts : option Timestamp) :
  exists tr s,
    formatTime toLocaleTimeString ts = (tr, Returned s) /\ null_safe tr.
Proof.
  destruct ts as [t|]; do 2 eexists; (split; [reflexivity|]).
  - repeat constructor; discriminate.
  - constructor.
Qed.

Lemma renderMessage_returns (u : option User) (msg : Message) :
  exists tr k time,
    renderMessage toLocaleTimeString u msg
    = (tr, Returned (ChatMessageEl k msg (bool_decide (m_uid msg = uid <$> u)) time))
    /\ null_safe tr.
Proof.
  unfold renderMessage.
  destruct (message_key_returns msg) as (tr1 & k & -> & H1 & _).
  destruct (formatTime_returns (m_createdAt msg)) as (tr2 & s & E2 & H2).
  simpl. rewrite E2. simpl.
  do 3 eexists. split; [reflexivity|].
  rewrite app_nil_r. apply Forall_app. split; assumption.
Qed.

Lemma mapM_renderMessage_returns (u : option User) (msgs : list Message) :
  exists tr els,
    mapM (renderMessage toLocaleTimeString u) msgs = (tr, Returned els) /\
    null_safe tr /\ length els = length msgs.
Proof.
  induction msgs as [|m msgs IH]; simpl.
  - exists [], []. repeat split. constructor.
  - destruct (renderMessage_returns u m) as (tr1 & k & time & -> & H1).
    destruct IH as (tr2 & els & -> & H2 & Hlen). simpl.
    do 2 eexists. split; [reflexivity|]. split.
    + rewrite app_nil_r. apply Forall_app. split; assumption.
    + simpl. now rewrite Hlen.
Qed.

(** Every message of a non-empty snapshot becomes one bubble. *)
Lemma mapM_renderMessage_bubbles (u : option User) (l : list Message) :
  exists tr els,
    mapM (renderMessage toLocaleTimeString u) l = (tr, Returned els) /\
    length els = length l /\
    Forall (fun e => e <> Spinner /\ e <> EmptyState) els.
Proof.
  induction l as [|x l IH]; simpl.
  - exists [], []. repeat split. constructor.
  - destruct (renderMessage_returns u x) as (tr1 & k & time & -> & _).
    destruct IH as (tr2 & els & -> & Hlen & Hall). simpl.
    do 2 eexists. split; [reflexivity|]. split; [simpl; now rewrite Hlen|].
    constructor; [split; discriminate|exact Hall].
Qed.

(** X17. Rendering the feed never throws, whatever triple the hook
    delivers and whatever the messages hold, and no method is ever called
    on a null timestamp while doing so. *)
Lemma MessagesList_returns (h : hook_result) (u : option User) :
  exists tr els,
    MessagesList toLocaleTimeString h u = (tr, Returned els) /\ null_safe tr.
Proof.
  unfold MessagesList.
  destruct (loadingMessages h); [do 2 eexists; split; [reflexivity|constructor]|].
  destruct (error h); [do 2 eexists; split; [reflexivity|constructor]|].
  destruct (messages h) as [[|m msgs]|];
    try (do 2 eexists; split; [reflexivity|constructor]).
  destruct (mapM_renderMessage_returns u (m :: msgs)) as (tr & els & E & H & _).
  rewrite E. simpl. do 2 eexists. split; [reflexivity|].
  now rewrite app_nil_r.
Qed.

(** C10. [formatTime] on a null [createdAt] returns the empty string and
    makes no method call at all, so [toDate] is never invoked on [null]; a
    message whose timestamp is still pending renders, without throwing, as a
    bubble whose time label is empty. *)
Theorem formatTime_pending :
  formatTime toLocaleTimeString None = ([], Returned []) /\
  forall (u : option User) i t who name,
    exists k,
      renderMessage toLocaleTimeString u (mkMessage i t None who name)
      = ([], Returned (ChatMessageEl k (mkMessage i t None who name)
                         (bool_decide (who = uid <$> u)) [])).
Proof.
  split; [reflexivity|].
  intros u i t who name. unfold renderMessage, message_key. simpl.
  destruct i as [i|]; [destruct (JsString.truthy i)|];
    eexists; reflexivity.
Qed.

(** C6. The binding is in one of three states, read off the hook's triple:
    in Loading the view is the spinner with its caption; in Error it is the
    error text built from the failure's message and nothing else, so no
    spinner; in Ready with no message it is the empty-state text, and in
    Ready with messages one bubble per message. *)
Theorem feed_view_by_state (h : hook_result) (u : option User) :
  match feed_state_of h with
  | FeedLoading =>
      MessagesList toLocaleTimeString h u = ([], Returned [Spinner; LoadingText])
  | FeedError msg =>
      MessagesList toLocaleTimeString h u
      = ([], Returned [ErrorText (js"Error loading messages: " ++ msg)])
  | FeedReady [] =>
      MessagesList toLocaleTimeString h u = ([], Returned [EmptyState; EndAnchor])
  | FeedReady (m :: msgs) =>
      exists tr els,
        MessagesList toLocaleTimeString h u = (tr, Returned (els ++ [EndAnchor])) /\
        length els = length (m :: msgs) /\
        Forall (fun e => e <> Spinner /\ e <> EmptyState) els
  end.
Proof.
  unfold feed_state_of, MessagesList.
  destruct (loadingMessages h); [reflexivity|].
  destruct (error h) as [e|]; [reflexivity|].
  destruct (messages h) as [[|m msgs]|]; try reflexivity.
  unfold default.
  destruct (mapM_renderMessage_bubbles u (m :: msgs))
    as (tr & els & E & Hlen & Hall).
  rewrite E. simpl. do 2 eexists. split; [reflexivity|]. split; assumption.
Qed.

End FeedProperties.

(** *** The query window *)

Lemma createdAt_leb_total (a b : option Timestamp) :
  createdAt_leb a b = false -> createdAt_leb b a = true.
Proof.
  destruct a as [x|], b as [y|]; simpl; try congruence.
  rewrite Z.leb_gt, Z.leb_le. lia.
Qed.

Lemma insert_by_Permutation (m : Message) (l : list Message) :
  Permutation (insert_by m l) (m :: l).
Proof.
  induction l as [|x l IH]; simpl; [reflexivity|].
  destruct (createdAt_leb (m_createdAt x) (m_createdAt m)); [|reflexivity].
  rewrite IH. apply perm_swap.
Qed.

Lemma insert_by_HdRel (a m : Message) (l : list Message) :
  createdAt_le a m -> HdRel createdAt_le a l ->
  HdRel createdAt_le a (insert_by m l).
Proof.
  intros Ham H. destruct l as [|x l]; simpl; [now constructor|].
  inversion H; subst.
  destruct (createdAt_leb (m_createdAt x) (m_createdAt m));
    now constructor.
Qed.

Lemma insert_by_Sorted (m : Message) (l : list Message) :
  Sorted createdAt_le l -> Sorted createdAt_le (insert_by m l).
Proof.
  induction 1 as [|x l Hs IH Hhd]; simpl; [repeat constructor|].
  destruct (createdAt_leb (m_createdAt x) (m_createdAt m)) eqn:E.
  - constructor; [exact IH|]. now apply insert_by_HdRel.
  - constructor; [now constructor|]. constructor.
    now apply createdAt_leb_total.
Qed.

Lemma fold_insert_by_Permutation (coll acc : list Message) :
  Permutation (fold_left (fun acc m => insert_by m acc) coll acc)
              (acc ++ coll).
Proof.
  revert acc. induction coll as [|m coll IH]; intros acc; simpl.
  - now rewrite app_nil_r.
  - rewrite IH, insert_by_Permutation. simpl. apply Permutation_middle.
Qed.

Lemma fold_insert_by_Sorted (coll acc : list Message) :
  Sorted createdAt_le acc ->
  Sorted createdAt_le (fold_left (fun acc m => insert_by m acc) coll acc).
Proof.
  revert acc. induction coll as [|m coll IH]; intros acc H; simpl; [exact H|].
  apply IH. now apply insert_by_Sorted.
Qed.

(** [orderBy('createdAt')] returns the documents of the collection, in
    ascending order. *)
Lemma orderBy_createdAt_spec (coll : list Message) :
  Permutation (orderBy_createdAt coll) coll /\
  Sorted createdAt_le (orderBy_createdAt coll).
Proof.
  split.
  - apply (fold_insert_by_Permutation coll []).
  - apply fold_insert_by_Sorted. constructor.
Qed.

Lemma Sorted_firstn (n : nat) (l : list Message) :
  Sorted createdAt_le l -> Sorted createdAt_le (firstn n l).
Proof.
  intros H. revert n. induction H as [|x l Hs IH Hhd]; intros [|n]; simpl;
    try constructor.
  - apply IH.
  - destruct Hhd; destruct n; simpl; now constructor.
Qed.

(** X16. The subscription's view on every collection: it has
    at most 50 messages, they are in ascending [createdAt] order, they are
    messages of the collection, and they are the head of the ordered
    collection, so up to 50 messages the view is the whole collection. *)
Lemma messagesQuery_window (coll : list Message) :
  length (messagesQuery coll) <= 50 /\
  Sorted createdAt_le (messagesQuery coll) /\
  (forall m, In m (messagesQuery coll) -> In m coll) /\
  (exists rest, orderBy_createdAt coll = messagesQuery coll ++ rest) /\
  (length coll <= 50 -> messagesQuery coll = spec_feed_window coll).
Proof.
  destruct (orderBy_createdAt_spec coll) as [Hp Hs].
  unfold messagesQuery, spec_feed_window, limit, limitToLast.
  repeat split.
  - apply firstn_le_length.
  - now apply Sorted_firstn.
  - intros m Hm. apply (Permutation_in _ Hp).
    rewrite <- (firstn_skipn 50 (orderBy_createdAt coll)).
    apply in_or_app. now left.
  - exists (skipn 50 (orderBy_createdAt coll)).
    symmetry. apply firstn_skipn.
  - intros Hlen. apply Permutation_length in Hp.
    rewrite firstn_all2 by lia.
    replace (length (orderBy_createdAt coll) - 50) with 0 by lia.
    reflexivity.
Qed.

(** C1 at a collection of 51 messages committed at times 1 to 51. The
    subscription's view is the 50 oldest (times 1 to 50): it contains the
    oldest message and lacks the newest one, whereas the 50 most recent are
    those of times 2 to 51. *)
Theorem messagesQuery_keeps_oldest :
  length history51 = 51 /\
  messagesQuery history51 = map committed (seq 1 50) /\
  spec_feed_window history51 = map committed (seq 2 50) /\
  In (committed 1) (messagesQuery history51) /\
  ~ In (committed 51) (messagesQuery history51) /\
  messagesQuery history51 <> spec_feed_window history51.
Proof.
  assert (Hq : messagesQuery history51 = map committed (seq 1 50))
    by (vm_compute; reflexivity).
  assert (Hw : spec_feed_window history51 = map committed (seq 2 50))
    by (vm_compute; reflexivity).
  split; [reflexivity|]. split; [exact Hq|]. split; [exact Hw|].
  rewrite Hq, Hw. split; [|split].
  - simpl. now left.
  - rewrite in_map_iff. intros (n & Hn & Hin).
    apply in_seq in Hin. unfold committed in Hn.
    injection Hn as Hn. lia.
  - discriminate.
Qed.

(** ** Client initialisation *)

(** Each field of the configuration is the environment's entry of that
    name, or undefined when there is none. *)
Lemma firebaseConfig_fields (env : gmap string string) :
  Firebase.apiKey (Firebase.firebaseConfig env)
  = env !! "NEXT_PUBLIC_FIREBASE_API_KEY" /\
  Firebase.authDomain (Firebase.firebaseConfig env)
  = env !! "NEXT_PUBLIC_FIREBASE_AUTH_DOMAIN" /\
  Firebase.projectId (Firebase.firebaseConfig env)
  = env !! "NEXT_PUBLIC_FIREBASE_PROJECT_ID" /\
  Firebase.storageBucket (Firebase.firebaseConfig env)
  = env !! "NEXT_PUBLIC_FIREBASE_STORAGE_BUCKET" /\
  Firebase.messagingSenderId (Firebase.firebaseConfig env)
  = env !! "NEXT_PUBLIC_FIREBASE_MESSAGING_SENDER_ID" /\
  Firebase.appId (Firebase.firebaseConfig env)
  = env !! "NEXT_PUBLIC_FIREBASE_APP_ID" /\
  Firebase.measurementId (Firebase.firebaseConfig env)
  = env !! "NEXT_PUBLIC_FIREBASE_VAPID_KEY".
Proof. repeat split. Qed.

(** X18. The module raises no error of its own: when its evaluation
    throws, the exception is the one thrown by [initializeApp], by [getAuth]
    or by [getFirestore]. *)
Lemma init_throws_from_sdk `{Firebase.Sdk} (env : gmap string string)
    (w : string) :
  Firebase.init env [] = Thrown w ->
  Firebase.initializeApp (Firebase.firebaseConfig env) = Thrown w \/
  exists app,
    Firebase.initializeApp (Firebase.firebaseConfig env) = Returned app /\
    (Firebase.getAuth app = Thrown w \/ Firebase.getFirestore app = Thrown w).
Proof.
  unfold Firebase.init. simpl.
  destruct (Firebase.initializeApp _) as [app|w0]; simpl.
  - intros E. right. exists app. split; [reflexivity|].
    destruct (Firebase.getAuth app) as [a|w1]; simpl in E.
    + destruct (Firebase.getFirestore app) as [d|w2]; simpl in E.
      * discriminate.
      * right. injection E as <-. reflexivity.
    + left. injection E as <-. reflexivity.
  - intros E. left. injection E as <-. reflexivity.
Qed.

(** C8, as the specification words it, fails: with the app id (and the
    storage bucket, the sender id and the measurement id) absent from the
    environment, the module runs to its end and exports a client whose
    configuration has these fields undefined. *)
Lemma init_accepts_missing_appId :
  In "NEXT_PUBLIC_FIREBASE_APP_ID" Firebase.parameters /\
  Firebase.sparse_env !! "NEXT_PUBLIC_FIREBASE_APP_ID" = None /\
  exists c : @Firebase.Client Firebase.keeping_sdk,
    @Firebase.init Firebase.keeping_sdk Firebase.sparse_env [] = Returned c /\
    Firebase.appId (Firebase.firebaseApp c) = None /\
    Firebase.storageBucket (Firebase.firebaseApp c) = None.
Proof.
  split; [simpl; tauto|]. split; [reflexivity|].
  eexists. split; [vm_compute; reflexivity|]. split; reflexivity.
Qed.

(** C8, amended. The module performs no check of its own. Each field of
    the configuration is the environment's entry of that name, undefined
    when it is absent. The app is taken from [getApp] when one is registered
    already and otherwise from [initializeApp] applied to that
    configuration; the module exports a client exactly when the app is
    obtained and [getAuth] and [getFirestore] accept it, whichever
    parameters are absent, and when it throws, the exception is the one
    thrown by the call that obtains the app, by [getAuth] or by
    [getFirestore]. *)
Theorem init_no_validation `{Firebase.Sdk} (env : gmap string string)
    (apps : list Firebase.App) :
  let obtained :=
    match apps with
    | [] => Firebase.initializeApp (Firebase.firebaseConfig env)
    | _ :: _ => Firebase.getApp apps
    end in
  (forall app a d,
     obtained = Returned app ->
     Firebase.getAuth app = Returned a ->
     Firebase.getFirestore app = Returned d ->
     Firebase.init env apps
     = Returned {| Firebase.firebaseApp := app;
                   Firebase.auth := a;
                   Firebase.googleProvider := [("prompt", "select_account")];
                   Firebase.db := d |}) /\
  (forall c,
     Firebase.init env apps = Returned c ->
     obtained = Returned (Firebase.firebaseApp c) /\
     Firebase.getAuth (Firebase.firebaseApp c) = Returned (Firebase.auth c) /\
     Firebase.getFirestore (Firebase.firebaseApp c) = Returned (Firebase.db c)) /\
  (forall w,
     Firebase.init env apps = Thrown w ->
     obtained = Thrown w \/
     exists app,
       obtained = Returned app /\
       (Firebase.getAuth app = Thrown w \/
        exists a, Firebase.getAuth app = Returned a /\
                  Firebase.getFirestore app = Thrown w)) /\
  (forall field name,
     In (field, name)
        [(Firebase.apiKey, "NEXT_PUBLIC_FIREBASE_API_KEY");
         (Firebase.authDomain, "NEXT_PUBLIC_FIREBASE_AUTH_DOMAIN");
         (Firebase.projectId, "NEXT_PUBLIC_FIREBASE_PROJECT_ID");
         (Firebase.storageBucket, "NEXT_PUBLIC_FIREBASE_STORAGE_BUCKET");
         (Firebase.messagingSenderId, "NEXT_PUBLIC_FIREBASE_MESSAGING_SENDER_ID");
         (Firebase.appId, "NEXT_PUBLIC_FIREBASE_APP_ID");
         (Firebase.measurementId, "NEXT_PUBLIC_FIREBASE_VAPID_KEY")] ->
     field (Firebase.firebaseConfig env) = env !! name).
Proof.
  intros obtained.
  assert (Hinit : Firebase.init env apps
                  = Firebase.and_then obtained (fun app =>
                    Firebase.and_then (Firebase.getAuth app) (fun a =>
                    Firebase.and_then (Firebase.getFirestore app) (fun d =>
                    Returned {| Firebase.firebaseApp := app;
                                Firebase.auth := a;
                                Firebase.googleProvider :=
                                  [("prompt", "select_account")];
                                Firebase.db := d |})))).
  { subst obtained. unfold Firebase.init. destruct apps; reflexivity. }
  rewrite Hinit. clearbody obtained. clear Hinit.
  split; [|split; [|split]].
  - intros app a d -> Ha Hd. simpl. rewrite Ha. simpl. rewrite Hd. reflexivity.
  - intros c. destruct obtained as [app|w]; simpl; [|discriminate].
    destruct (Firebase.getAuth app) as [a|w] eqn:Ea; simpl; [|discriminate].
    destruct (Firebase.getFirestore app) as [d|w] eqn:Ed; simpl; [|discriminate].
    intros [= <-]. simpl. rewrite Ea, Ed. repeat split.
  - intros w. destruct obtained as [app|w0]; simpl.
    + intros E. right. exists app. split; [reflexivity|].
      destruct (Firebase.getAuth app) as [a|w1]; simpl in E.
      * right. exists a. split; [reflexivity|].
        destruct (Firebase.getFirestore app) as [d|w2]; simpl in E;
          [discriminate|]. injection E as <-. reflexivity.
      * left. injection E as <-. reflexivity.
    + intros E. left. injection E as <-. reflexivity.
  - intros field name Hin. simpl in Hin.
    repeat (destruct Hin as [[= <- <-]|Hin]; [reflexivity|]). destruct Hin.
Qed.

Lemma init_no_validation_witness :
  @Firebase.init Firebase.keeping_sdk Firebase.sparse_env []
  = Returned (@Firebase.mkClient Firebase.keeping_sdk
                (Firebase.firebaseConfig Firebase.sparse_env) "k"
                [("prompt", "select_account")] (Some "chat")) /\
  (@Firebase.initializeApp Firebase.keeping_sdk (Firebase.firebaseConfig ∅)
   = Thrown "auth/invalid-api-key" \/
   exists app,
     @Firebase.initializeApp Firebase.keeping_sdk (Firebase.firebaseConfig ∅)
     = Returned app /\
     (@Firebase.getAuth Firebase.keeping_sdk app = Thrown "auth/invalid-api-key" \/
      exists a,
        @Firebase.getAuth Firebase.keeping_sdk app = Returned a /\
        @Firebase.getFirestore Firebase.keeping_sdk app
        = Thrown "auth/invalid-api-key")) /\
  Firebase.appId (Firebase.firebaseConfig Firebase.sparse_env)
  = Firebase.sparse_env !! "NEXT_PUBLIC_FIREBASE_APP_ID".
Proof.
  split; [|split].
  - destruct (@init_no_validation Firebase.keeping_sdk Firebase.sparse_env [])
      as (H & _ & _ & _).
    apply H; reflexivity.
  - destruct (@init_no_validation Firebase.keeping_sdk ∅ [])
      as (_ & _ & H & _).
    apply H. reflexivity.
  - destruct (@init_no_validation Firebase.keeping_sdk Firebase.sparse_env [])
      as (_ & _ & _ & H).
    apply H. simpl. tauto.
Defined.

(** ** The event loop as a whole *)

Lemma count_app {A} (p : A -> bool) (l1 l2 : list A) :
  count p (l1 ++ l2) = count p l1 + count p l2.
Proof. unfold count. now rewrite List.filter_app, length_app. Qed.

(** If every handler issues one effect of a kind exactly at the events of
    some kind, the totals over a run agree. *)
Lemma count_run (p : effect -> bool) (q : event -> bool) :
  (forall st ev, count p (snd (step st ev)) = if q ev then 1 else 0) ->
  forall evs st, count p (snd (run st evs)) = count q evs.
Proof.
  intros Hstep. induction evs as [|ev evs IH]; intros st; [reflexivity|].
  rewrite run_cons. simpl snd. rewrite count_app, Hstep, IH.
  unfold count. simpl. destruct (q ev); reflexivity.
Qed.

(** X1. Over any run, the provider is asked to sign in exactly once per
    click on the sign-in button and to sign out exactly once per click on
    the sign-out button, the form's default action is suppressed once per
    submit, and there are never more appends than submits: no handler calls
    the provider or the store on its own or a second time. *)
Theorem one_request_per_click (st : state) (evs : list event) :
  count is_popup (snd (run st evs)) = count is_sign_in_click evs /\
  count is_sign_out_call (snd (run st evs)) = count is_sign_out_click evs /\
  count is_prevent_default (snd (run st evs)) = count is_submit_click evs /\
  length (appends (snd (run st evs))) <= count is_submit_click evs.
Proof.
  assert (Hsubmit : forall s, snd (step s SubmitClicked) = [PreventDefault]
                     \/ exists d, snd (step s SubmitClicked)
                                  = [PreventDefault; AddDoc "messages" d]).
  { intros s. simpl. unfold sendMessage_call.
    destruct (sendMessage_rejects s); [now left|].
    destruct (user s); [right; eexists; reflexivity|now left]. }
  split; [|split; [|split]].
  - apply count_run. intros s ev.
    destruct ev as [| | |[]|  |[]| |[]]; try reflexivity.
    destruct (Hsubmit s) as [->|[d ->]]; reflexivity.
  - apply count_run. intros s ev.
    destruct ev as [| | |[]|  |[]| |[]]; try reflexivity.
    destruct (Hsubmit s) as [->|[d ->]]; reflexivity.
  - apply count_run. intros s ev.
    destruct ev as [| | |[]|  |[]| |[]]; try reflexivity.
    destruct (Hsubmit s) as [->|[d ->]]; reflexivity.
  - revert st. induction evs as [|ev evs IH]; intros st; [simpl; lia|].
    rewrite run_cons. simpl snd.
    assert (Happ : forall l1 l2, appends (l1 ++ l2) = appends l1 ++ appends l2).
    { induction l1 as [|[] l1 IHl]; intros l2; simpl; rewrite ?IHl; reflexivity. }
    rewrite Happ, length_app. specialize (IH (fst (step st ev))).
    change (count is_submit_click (ev :: evs))
      with (count is_submit_click ([ev] ++ evs)).
    rewrite count_app.
    enough (length (appends (snd (step st ev))) <= count is_submit_click [ev])
      by lia.
    destruct ev as [| | |[]|  |[]| |[]]; try (simpl; unfold count; simpl; lia).
    destruct (Hsubmit st) as [->|[d ->]]; unfold count; simpl; lia.
Qed.

(** X2. Every rejected promise is logged exactly once, and an alert is shown
    exactly once per failed sign-in: over any run the number of
    [console.error] calls is the number of rejections, and the number of
    alerts the number of rejected sign-ins. *)
Theorem every_rejection_logged (st : state) (evs : list event) :
  count is_log (snd (run st evs)) = count is_rejection evs /\
  count is_alert (snd (run st evs)) = count is_failed_sign_in evs.
Proof.
  assert (Hsubmit : forall s, snd (step s SubmitClicked) = [PreventDefault]
                     \/ exists d, snd (step s SubmitClicked)
                                  = [PreventDefault; AddDoc "messages" d]).
  { intros s. simpl. unfold sendMessage_call.
    destruct (sendMessage_rejects s); [now left|].
    destruct (user s); [right; eexists; reflexivity|now left]. }
  split; apply count_run; intros s ev;
    destruct ev as [| | |[]|  |[]| |[]]; try reflexivity;
    destruct (Hsubmit s) as [->|[d ->]]; reflexivity.
Qed.

(** X3. The signed-in user held by the component is always what the
    auth-state observer reported last (and the value it started from while
    the observer has not fired): no click handler and no settled promise
    ever writes it. *)
Theorem user_is_last_reported (st : state) (evs : list event) :
  user (fst (run st evs))
  = match last_reported None evs with
    | Some cu => cu
    | None => user st
    end.
Proof.
  revert st. induction evs as [|ev evs IH]; intros st; [reflexivity|].
  rewrite run_cons. simpl fst. rewrite IH.
  destruct ev as [cu| | |[]|  |[]| |[]]; simpl; try reflexivity.
  rewrite (last_reported_acc evs (Some cu)).
  destruct (last_reported None evs); reflexivity.
Qed.

(** X4. A draft outlives every change of session: over a run in which the
    viewer does not type and no append is acknowledged, whatever sign-ins,
    sign-outs, observer reports and failures occur, the draft is what it
    was. *)
Theorem draft_survives_session_changes (st : state) (evs : list event) :
  forallb leaves_draft evs = true ->
  formValue (fst (run st evs)) = formValue st.
Proof.
  revert st. induction evs as [|ev evs IH]; intros st H; [reflexivity|].
  simpl in H. apply andb_true_iff in H as [Hev Hevs].
  rewrite run_cons. simpl fst. rewrite (IH _ Hevs).
  destruct ev as [| | |[]|  |[]| |[]]; try reflexivity; discriminate.
Qed.

Lemma draft_survives_session_changes_witness :
  formValue (fst (run (signed_in alice (js"secret"))
                      [SignOutClicked; SignOutSettled (Resolved tt);
                       AuthStateChanged None; SignInClicked;
                       AuthStateChanged (Some nameless);
                       SignInSettled (Resolved tt)]))
  = js"secret".
Proof.
  apply (draft_survives_session_changes (signed_in alice (js"secret"))).
  reflexivity.
Defined.

(** X5. The observer's callback and the settling of the sign-in promise
    commute: whichever runs first after a click on the sign-in button, the
    component ends with the reported user, not loading, and the draft
    untouched. *)
Theorem sign_in_order_irrelevant (st : state) (cu : option User)
    (r : settled unit) :
  fst (run st [SignInClicked; AuthStateChanged cu; SignInSettled r])
  = fst (run st [SignInClicked; SignInSettled r; AuthStateChanged cu]) /\
  fst (run st [SignInClicked; AuthStateChanged cu; SignInSettled r])
  = {| user := cu; loadingAuth := false; formValue := formValue st |} /\
  session_of (fst (run st [SignInClicked; SignInSettled r; AuthStateChanged cu]))
  = match cu with Some u => Authenticated u | None => Anonymous end.
Proof. destruct cu, r; repeat split. Qed.

(** X6. Whatever the sequence of events, every document the client appends
    goes to the [messages] collection, asks for a server timestamp, has a
    text that does not trim to the empty string and a non-empty
    [userName]. *)
Theorem appended_documents_well_formed (st : state) (evs : list event)
    (coll : string) (d : NewMessage) :
  In (AddDoc coll d) (snd (run st evs)) ->
  coll = "messages" /\
  createdAt d = serverTimestamp /\
  JsString.trim (text d) <> [] /\
  userName d <> [] /\
  exists c, In c (text d) /\ JsString.isWhiteSpace c = false.
Proof.
  revert st. induction evs as [|ev evs IH]; intros st H; [destruct H|].
  rewrite run_cons in H. simpl snd in H. apply in_app_or in H as [H|H];
    [|exact (IH _ H)].
  destruct ev as [| | |[]|  |[]| |[]]; simpl in H;
    try (repeat destruct H as [H|H]; try discriminate H; now destruct H).
  unfold sendMessage_call in H.
  destruct (sendMessage_rejects st) eqn:E.
  { destruct H as [H|[]]; discriminate. }
  apply sendMessage_rejects_false_iff in E as [Ht [u Hu]].
  rewrite Hu in H. simpl in H.
  destruct H as [H|[H|[]]]; [discriminate|]. injection H as <- <-.
  split; [reflexivity|]. split; [reflexivity|]. split; [exact Ht|].
  simpl.
  destruct (forallb JsString.isWhiteSpace (formValue st)) eqn:Ews.
  - apply trim_nil_iff in Ews. contradiction.
  - assert (Hex : exists c, In c (formValue st) /\ JsString.isWhiteSpace c = false).
    { clear -Ews. induction (formValue st) as [|c s IHs]; [discriminate|].
      simpl in Ews. destruct (JsString.isWhiteSpace c) eqn:Ec.
      - destruct (IHs Ews) as (c' & Hin & Hc'). exists c'. split; [now right|exact Hc'].
      - exists c. split; [now left|exact Ec]. }
    split; [|exact Hex].
    unfold JsString.or_else. destruct (displayName u) as [[|x n]|]; discriminate.
Qed.

Lemma appended_documents_well_formed_witness :
  JsString.trim (js"hello") <> [] /\ js"Anonymous" <> [].
Proof.
  destruct (appended_documents_well_formed (signed_out (js"hello"))
              [AuthStateChanged (Some nameless); SubmitClicked]
              "messages" (newMessage (js"hello") nameless))
    as (_ & _ & Ht & Hn & _).
  { simpl. right. left. reflexivity. }
  split; [exact Ht|exact Hn].
Defined.

(** ** Composer and profile card in the view *)

(** X7. The Send button tells the truth about the guard: whenever the
    composer is on screen it shows the current draft, and its button is
    disabled exactly when a submit would append nothing. *)
Theorem send_button_matches_guard (st : state) (r : settled unit)
    (v : jsstring) (disabled : bool) :
  In (MessageFormEl v disabled) (render st) ->
  v = formValue st /\
  (disabled = true <-> appends (snd (sendMessage st r)) = []) /\
  (disabled = false <-> exists d, appends (snd (sendMessage st r)) = [d]).
Proof.
  unfold render. intros [H|H]; [discriminate|].
  destruct (loadingAuth st).
  { destruct H as [H|[]]; discriminate. }
  destruct (user st) as [u|] eqn:Eu.
  2:{ repeat destruct H as [H|H]; try discriminate; destruct H. }
  repeat destruct H as [H|H]; try discriminate; [|destruct H].
  injection H as <- <-. split; [reflexivity|].
  destruct (sendMessage_rejects st) eqn:E.
  - assert (Ht : JsString.truthy (JsString.trim (formValue st)) = false).
    { unfold sendMessage_rejects in E. rewrite Eu in E.
      rewrite bool_decide_eq_true_2 in E by eauto.
      simpl in E. rewrite orb_false_r in E. now apply negb_true_iff in E. }
    rewrite Ht, (sendMessage_rejected st r E). simpl. split.
    + tauto.
    + split; [discriminate|]. intros [d Hd]. discriminate.
  - assert (Ht : JsString.truthy (JsString.trim (formValue st)) = true).
    { unfold sendMessage_rejects in E. apply orb_false_iff in E as [E _].
      now apply negb_false_iff in E. }
    rewrite Ht, (sendMessage_accepted st r u E Eu). simpl.
    destruct r as [[]|e]; simpl; split;
      try (split; discriminate); (split; [eauto|reflexivity]).
Qed.

Lemma send_button_matches_guard_witness :
  js"hello" = js"hello" /\
  (false = true <->
   appends (snd (sendMessage (signed_in alice (js"hello")) (Resolved tt))) = []) /\
  (false = false <->
   exists d,
     appends (snd (sendMessage (signed_in alice (js"hello")) (Resolved tt))) = [d]).
Proof.
  apply (send_button_matches_guard (signed_in alice (js"hello")) (Resolved tt)).
  simpl. do 4 right. left. reflexivity.
Defined.

(** X8. The profile card never shows a blank name: when it is on screen a
    user is signed in, the mail shown is that user's, and the name is the
    user's display name if that is a non-empty string and "User" if not. *)
Theorem profile_card_name (st : state) (name : jsstring)
    (mail : option jsstring) :
  In (ProfileCard name mail) (render st) ->
  name <> [] /\
  exists u,
    session_of st = Authenticated u /\ mail = email u /\
    (forall n, displayName u = Some n -> n <> [] -> name = n) /\
    (displayName u = None \/ displayName u = Some [] -> name = js"User").
Proof.
  unfold render, session_of. intros [H|H]; [discriminate|].
  destruct (loadingAuth st).
  { destruct H as [H|[]]; discriminate. }
  destruct (user st) as [u|].
  2:{ repeat destruct H as [H|H]; try discriminate; destruct H. }
  destruct H as [H|H].
  2:{ repeat destruct H as [H|H]; try discriminate; destruct H. }
  injection H as <- <-. unfold JsString.or_else. split.
  - destruct (displayName u) as [[|c n]|]; discriminate.
  - exists u. repeat split.
    + intros n -> Hn. destruct n; [congruence|reflexivity].
    + intros [->| ->]; reflexivity.
Qed.

Lemma profile_card_name_witness :
  js"User" <> [] /\
  exists u,
    session_of (signed_in nameless []) = Authenticated u /\
    email nameless = email u /\
    (forall n, displayName u = Some n -> n <> [] -> js"User" = n) /\
    (displayName u = None \/ displayName u = Some [] -> js"User" = js"User").
Proof.
  apply (profile_card_name (signed_in nameless []) (js"User") (email nameless)).
  simpl. right. left. reflexivity.
Defined.

(** X9. The avatar is never empty: it is the user's picture when the photo
    URL is a non-empty string, and otherwise a single code unit, the first
    one of the display name or the letter U when there is no name. *)
Theorem profileAvatar_never_blank (u : User) :
  match profileAvatar u with
  | AvatarImage src => photoURL u = Some src /\ src <> []
  | AvatarLetter l =>
      (photoURL u = None \/ photoURL u = Some []) /\
      length l = 1 /\
      match displayName u with
      | Some (c :: _) => l = [c]
      | _ => l = js"U"
      end
  end.
Proof.
  unfold profileAvatar.
  assert (Hl : length (JsString.or_else (charAt0 <$> displayName u) (js"U")) = 1 /\
               match displayName u with
               | Some (c :: _) =>
                   JsString.or_else (charAt0 <$> displayName u) (js"U") = [c]
               | _ => JsString.or_else (charAt0 <$> displayName u) (js"U") = js"U"
               end).
  { destruct (displayName u) as [[|c n]|]; split; reflexivity. }
  destruct (photoURL u) as [[|c p]|]; simpl.
  - split; [now right|exact Hl].
  - split; [reflexivity|discriminate].
  - split; [now left|exact Hl].
Qed.

(** ** The feed, message by message *)

Section FeedBubbles.

Variable toLocaleTimeString : Timestamp -> jsstring.

Lemma renderMessage_bubble (u : option User) (m : Message) :
  exists tr k,
    renderMessage toLocaleTimeString u m
    = (tr, Returned (ChatMessageEl k m (bool_decide (m_uid m = uid <$> u))
                       (label_of toLocaleTimeString (m_createdAt m)))).
Proof.
  unfold renderMessage.
  destruct (message_key_returns m) as (tr1 & k & -> & _ & _).
  destruct (m_createdAt m) as [t|]; simpl; do 2 eexists; reflexivity.
Qed.

(** X10. Once loaded without error and not empty, the feed shows exactly one
    bubble per message of the snapshot, in the snapshot's order, followed by
    the scroll anchor; each bubble carries its message, is marked as the
    viewer's own exactly when the message's [uid] is the viewer's, and is
    labelled with the formatted server time, or with nothing while that
    time is pending. *)
Theorem feed_shows_every_message (h : hook_result) (u : option User)
    (msgs : list Message) :
  loadingMessages h = false -> error h = None ->
  messages h = Some msgs -> msgs <> [] ->
  exists tr els,
    MessagesList toLocaleTimeString h u = (tr, Returned (els ++ [EndAnchor])) /\
    Forall2 (fun e m =>
               exists k,
                 e = ChatMessageEl k m (bool_decide (m_uid m = uid <$> u))
                       (label_of toLocaleTimeString (m_createdAt m)))
            els msgs.
Proof.
  intros Hl He Hm Hne. unfold MessagesList. rewrite Hl, He, Hm.
  assert (H : exists tr els,
             mapM (renderMessage toLocaleTimeString u) msgs = (tr, Returned els) /\
             Forall2 (fun e m =>
               exists k,
                 e = ChatMessageEl k m (bool_decide (m_uid m = uid <$> u))
                       (label_of toLocaleTimeString (m_createdAt m)))
               els msgs).
  { clear. induction msgs as [|m msgs IH]; simpl.
    - exists [], []. split; [reflexivity|constructor].
    - destruct (renderMessage_bubble u m) as (tr1 & k & ->).
      destruct IH as (tr2 & els & -> & Hall). simpl.
      do 2 eexists. split; [reflexivity|]. constructor; [eauto|exact Hall]. }
  destruct H as (tr & els & E & Hall).
  destruct msgs as [|m msgs]; [congruence|].
  rewrite E. simpl. do 2 eexists. split; [reflexivity|exact Hall].
Qed.

(** X11. A sent message comes back as the sender's own. When a submit passes
    the guard and the store delivers the appended document in a snapshot,
    the bubble rendered for a viewer is marked as own exactly when the
    viewer has the sender's [uid]; its body is the draft; for any other
    viewer the caption is the [userName] that was written, the
    "Anonymous" fallback of the bubble never replacing it; and while the
    server time is pending the time label is empty. *)
Theorem own_message_round_trip (st : state) (r : settled unit)
    (id : option jsstring) (ts : option Timestamp) (viewer : User) :
  sendMessage_rejects st = false ->
  exists author d tr k own,
    user st = Some author /\
    appends (snd (sendMessage st r)) = [d] /\
    renderMessage toLocaleTimeString (Some viewer) (snapshot_of id ts d)
    = (tr, Returned (ChatMessageEl k (snapshot_of id ts d) own
                       (label_of toLocaleTimeString ts))) /\
    (own = true <-> uid author = uid viewer) /\
    body (ChatMessage (snapshot_of id ts d) own (label_of toLocaleTimeString ts))
    = formValue st /\
    caption (ChatMessage (snapshot_of id ts d) own (label_of toLocaleTimeString ts))
    = (if own then None else Some (userName d)).
Proof.
  intros H. pose proof H as H'.
  apply sendMessage_rejects_false_iff in H' as [_ [author Hu]].
  destruct (renderMessage_bubble (Some viewer)
              (snapshot_of id ts (newMessage (formValue st) author)))
    as (tr & k & E).
  exists author, (newMessage (formValue st) author), tr, k,
    (bool_decide (Some (uid author) = Some (uid viewer))).
  split; [exact Hu|]. split.
  { rewrite (sendMessage_accepted st r author H Hu).
    destruct r as [[]|e]; reflexivity. }
  split; [exact E|]. split.
  { rewrite bool_decide_eq_true. split; congruence. }
  split; [reflexivity|].
  unfold ChatMessage. simpl.
  destruct (bool_decide (Some (uid author) = Some (uid viewer))); simpl;
    [reflexivity|].
  unfold JsString.or_else at 1.
  destruct (displayName author) as [[|c n]|]; reflexivity.
Qed.

(** X12. The feed of page.js renders what the feed of ChatAppComponent.js
    renders with the spinner left out: the two differ while loading only,
    where page.js shows the caption alone. *)
Theorem page_feed_has_no_spinner (h : hook_result) (u : option User) :
  exists tr els,
    MessagesList toLocaleTimeString h u = (tr, Returned els) /\
    Page.MessagesList toLocaleTimeString h u
    = (tr, Returned (List.filter (fun e => negb (is_spinner e)) els)).
Proof.
  unfold MessagesList, Page.MessagesList.
  destruct (loadingMessages h); [do 2 eexists; split; reflexivity|].
  destruct (error h); [do 2 eexists; split; reflexivity|].
  destruct (messages h) as [[|m msgs]|];
    try (do 2 eexists; split; reflexivity).
  destruct (mapM_renderMessage_bubbles toLocaleTimeString u (m :: msgs))
    as (tr & els & E & _ & Hall).
  rewrite E. simpl. do 2 eexists. split; [reflexivity|].
  rewrite List.filter_app. simpl. f_equal. f_equal. f_equal.
  clear -Hall. induction Hall as [|e els [He _] _ IH]; [reflexivity|].
  simpl. destruct e; try congruence; simpl; now rewrite <- IH.
Qed.

End FeedBubbles.

Lemma own_message_round_trip_witness :
  exists author d tr k own,
    Some alice = Some author /\
    appends (snd (sendMessage (signed_in alice (js"hello")) (Resolved tt))) = [d] /\
    renderMessage const_clock (Some nameless) (snapshot_of None None d)
    = (tr, Returned (ChatMessageEl k (snapshot_of None None d) own [])) /\
    (own = true <-> uid author = uid nameless) /\
    body (ChatMessage (snapshot_of None None d) own []) = js"hello" /\
    caption (ChatMessage (snapshot_of None None d) own [])
    = (if own then None else Some (userName d)).
Proof.
  apply (own_message_round_trip const_clock (signed_in alice (js"hello")) (Resolved tt)
           None None nameless).
  reflexivity.
Defined.

Lemma feed_shows_every_message_witness :
  exists tr els,
    MessagesList const_clock two_messages (Some alice)
    = (tr, Returned (els ++ [EndAnchor])) /\
    Forall2 (fun e m =>
               exists k,
                 e = ChatMessageEl k m (bool_decide (m_uid m = uid <$> Some alice))
                       (label_of const_clock (m_createdAt m)))
            els
            [committed 7; snapshot_of None None (newMessage (js"hello") alice)].
Proof.
  apply (feed_shows_every_message const_clock two_messages (Some alice));
    [reflexivity|reflexivity|reflexivity|discriminate].
Defined.

(** ** The two pages side by side *)

(** X13. The page of page.js takes the component through the same states as
    ChatAppComponent.js on every sequence of events, and does the same to
    the outside world except that it never navigates: its effects are those
    of ChatAppComponent.js with the [router.push] after a successful
    sign-in removed. *)
Theorem page_run_same_but_navigation (evs : list event) (st : state) :
  fst (Page.run st evs) = fst (run st evs) /\
  snd (Page.run st evs)
  = List.filter (fun e => negb (is_navigation e)) (snd (run st evs)).
Proof.
  assert (Hstep : forall s ev,
             fst (Page.step s ev) = fst (step s ev) /\
             snd (Page.step s ev)
             = List.filter (fun e => negb (is_navigation e)) (snd (step s ev))).
  { intros s ev. destruct ev as [| | |[]|  |[]| |[]]; try (split; reflexivity).
    simpl. unfold sendMessage_call.
    destruct (sendMessage_rejects s); [split; reflexivity|].
    destruct (user s); split; reflexivity. }
  revert st. induction evs as [|ev evs IH]; intros st; [split; reflexivity|].
  rewrite run_cons. simpl.
  destruct (Hstep st ev) as [Hf Hs].
  destruct (Page.step st ev) as [st1 eff1]. simpl in Hf, Hs. subst st1.
  destruct (IH (fst (step st ev))) as [IHf IHs].
  destruct (Page.run (fst (step st ev)) evs) as [st2 eff2]. simpl in IHf, IHs.
  simpl. split; [exact IHf|].
  rewrite List.filter_app, Hs, IHs. reflexivity.
Qed.

(** ** The query on every collection *)

Lemma createdAt_leb_trans (a b c : option Timestamp) :
  createdAt_leb a b = true -> createdAt_leb b c = true ->
  createdAt_leb a c = true.
Proof.
  destruct a, b, c; simpl; try congruence.
  rewrite !Z.leb_le. lia.
Qed.

Lemma Sorted_app_le (l1 l2 : list Message) :
  Sorted createdAt_le (l1 ++ l2) ->
  forall x y, In x l1 -> In y l2 -> createdAt_le x y.
Proof.
  intros H. apply Sorted_StronglySorted in H.
  2:{ intros a b c. apply createdAt_leb_trans. }
  induction l1 as [|a l1 IH]; intros x y Hx Hy; [destruct Hx|].
  simpl in H. apply StronglySorted_inv in H as [Hs Hall].
  destruct Hx as [<-|Hx].
  - rewrite List.Forall_forall in Hall. apply Hall, in_or_app. now right.
  - now apply IH.
Qed.

(** X14. On every collection the subscription's view is the oldest part of
    it: the collection splits into the view and the messages left out, and
    no message left out was created before a message that is shown. With
    more than 50 messages, something is left out. *)
Theorem query_shows_oldest_part (coll : list Message) :
  exists rest,
    Permutation coll (messagesQuery coll ++ rest) /\
    length rest = length coll - 50 /\
    forall shown dropped,
      In shown (messagesQuery coll) -> In dropped rest ->
      createdAt_le shown dropped.
Proof.
  destruct (orderBy_createdAt_spec coll) as [Hp Hs].
  exists (skipn 50 (orderBy_createdAt coll)).
  unfold messagesQuery, limit. split; [|split].
  - rewrite firstn_skipn. symmetry. exact Hp.
  - rewrite length_skipn. apply Permutation_length in Hp. lia.
  - apply Sorted_app_le. now rewrite firstn_skipn.
Qed.

Lemma query_shows_oldest_part_witness :
  exists rest,
    Permutation history51 (messagesQuery history51 ++ rest) /\
    length rest = 1 /\
    forall shown dropped,
      In shown (messagesQuery history51) -> In dropped rest ->
      createdAt_le shown dropped.
Proof. exact (query_shows_oldest_part history51). Defined.

Lemma insert_by_last (m : Message) (l : list Message) :
  (forall x, In x l -> createdAt_le x m) -> insert_by m l = l ++ [m].
Proof.
  induction l as [|a l IH]; intros H; [reflexivity|].
  simpl. rewrite (H a) by now left.
  rewrite IH; [reflexivity|]. intros x Hx. apply H. now right.
Qed.

Lemma createdAt_lt_le (x m : Message) : createdAt_lt x m -> createdAt_le x m.
Proof.
  unfold createdAt_lt, createdAt_le.
  destruct (m_createdAt x), (m_createdAt m); simpl; try congruence.
  rewrite Z.ltb_lt, Z.leb_le. lia.
Qed.

(** X15. Once the collection holds 50 messages, a message created strictly
    after all of them never enters the view: appending a message whose
    [createdAt] is pending, or assigned and strictly later than that of
    every stored message (all of which have theirs assigned), leaves the
    subscription's result unchanged. *)
Theorem full_feed_ignores_new_message (coll : list Message) (m : Message) :
  50 <= length coll ->
  (forall x, In x coll -> createdAt_lt x m) ->
  messagesQuery (coll ++ [m]) = messagesQuery coll.
Proof.
  intros Hlen Hlt. destruct (orderBy_createdAt_spec coll) as [Hp _].
  unfold messagesQuery, limit, orderBy_createdAt.
  rewrite fold_left_app. simpl.
  fold (orderBy_createdAt coll).
  rewrite insert_by_last.
  - rewrite firstn_app.
    replace (50 - length (orderBy_createdAt coll)) with 0
      by (apply Permutation_length in Hp; lia).
    simpl. apply app_nil_r.
  - intros x Hx. apply createdAt_lt_le, Hlt. exact (Permutation_in _ Hp Hx).
Qed.

Lemma full_feed_ignores_new_message_witness :
  messagesQuery (history50 ++ [committed 51]) = messagesQuery history50.
Proof.
  apply (full_feed_ignores_new_message history50 (committed 51)).
  - vm_compute. lia.
  - apply (proj1 (forallb_forall
                    (fun x => createdAt_ltb (m_createdAt x) (m_createdAt (committed 51)))
                    history50)).
    vm_compute. reflexivity.
Defined.

(** A message still waiting for its server time comes after every message
    whose time is assigned. *)
Lemma pending_is_latest (x m : Message) (t : Timestamp) :
  m_createdAt x = Some t -> m_createdAt m = None -> createdAt_lt x m.
Proof. unfold createdAt_lt. intros -> ->. reflexivity.
Qed.

(** ** Client initialisation, failures *)

Lemma init_throws_from_sdk_witness :
  @Firebase.initializeApp Firebase.keeping_sdk (Firebase.firebaseConfig ∅)
  = Thrown "auth/invalid-api-key" \/
  exists app,
    @Firebase.initializeApp Firebase.keeping_sdk (Firebase.firebaseConfig ∅)
    = Returned app /\
    (@Firebase.getAuth Firebase.keeping_sdk app = Thrown "auth/invalid-api-key" \/
     @Firebase.getFirestore Firebase.keeping_sdk app
     = Thrown "auth/invalid-api-key").
Proof.
  apply (@init_throws_from_sdk Firebase.keeping_sdk ∅ "auth/invalid-api-key").
  reflexivity.
Defined.

Lemma messagesQuery_window_witness :
  (forall m, In m (messagesQuery history50) -> In m history50) /\
  messagesQuery history50 = spec_feed_window history50.
Proof.
  destruct (messagesQuery_window history50) as (_ & _ & Hin & _ & Heq).
  split; [exact Hin|]. apply Heq. vm_compute. lia.
Defined.
